(** * InteractionPane: the gesture handlers of [src/InteractionPane.js]

    The React component keeps a transform [(scale, offset)] owned by its parent
    and seven hook states of its own.  Each handler reads the values of the
    current render and calls setters; the next render sees the values set.  A
    handler is therefore embedded as a function from the state of one render
    to the state of the next, and a sequence of events as the composition of
    their handlers: the component renders between two events.

    JS numbers are IEEE binary64 values.  The handlers are written once, over
    an interface of the arithmetic they use, and the interface is instantiated
    twice:
    - with [PrimFloat], binary64 itself, on which the handlers run: rounding,
      [Infinity] and [NaN] are those of JS, in particular what a division by
      zero gives;
    - with the real numbers, exact arithmetic, on which the algebraic laws of
      the transform are stated.  Rounding, overflow and underflow are left out
      there, and a law that divides is stated for a divisor that is not 0. *)

From Stdlib Require Import Reals Lra Lia ZArith List Bool Floats.
Import ListNotations.

Set Implicit Arguments.

(* The literal 0.1 of the source is no binary64 value; like JS, Rocq reads it
   as the nearest one. *)
Set Warnings "-inexact-float".

(** ** The arithmetic the handlers use *)

Class Number (num : Type) : Type := {
  num_add : num -> num -> num;
  num_sub : num -> num -> num;
  num_mul : num -> num -> num;
  num_div : num -> num -> num;
  num_gt : num -> num -> bool;          (* a > b *)
  Math_sqrt : num -> num;
  Math_round : num -> num;
  lit_0 : num;                          (* the literal 0 *)
  lit_1 : num;                          (* the literal 1 *)
  lit_2 : num;                          (* the literal 2 *)
  lit_0_1 : num                         (* the literal 0.1 *)
}.

Declare Scope js_scope.
Delimit Scope js_scope with js.
Notation "a + b" := (num_add a b) : js_scope.
Notation "a - b" := (num_sub a b) : js_scope.
Notation "a * b" := (num_mul a b) : js_scope.
Notation "a / b" := (num_div a b) : js_scope.
Notation "a >? b" := (num_gt a b) (at level 70, no associativity) : js_scope.

(** ** Events, as the handlers read them *)

Module PointerEvent.
Record t (num : Type) : Type := { clientX : num; clientY : num }.
Arguments clientX {num} _.
Arguments clientY {num} _.
End PointerEvent.

Module Touch.
Record t (num : Type) : Type := { clientX : num; clientY : num }.
Arguments clientX {num} _.
Arguments clientY {num} _.
End Touch.

Module TouchEvent.
Record t (num : Type) : Type := { touches : list (Touch.t num) }.
Arguments touches {num} _.
End TouchEvent.

Module WheelEvent.
Record t (num : Type) : Type := { clientX : num; clientY : num; deltaY : num }.
Arguments clientX {num} _.
Arguments clientY {num} _.
Arguments deltaY {num} _.
End WheelEvent.

Section Handlers.

Context {num : Type} {N : Number num}.
Local Open Scope js_scope.

Record Point : Type := { x : num; y : num }.

(** [scale] and [offset] are the props, the other seven fields the hook
    states of the component, in the order of their [useState] calls. *)
Record State : Type := {
  scale : num;
  offset : Point;
  initialDistanceBetweenFingers : num;
  initialScale : num;
  initialTouchCenter : Point;
  initialOffset : Point;
  dragPositionStart : Point;
  dragPositionOffsetStart : Point;
  isDragging : bool
}.

(** *** The setters *)

Definition setScale (v : num) (st : State) : State :=
  {| scale := v; offset := st.(offset);
     initialDistanceBetweenFingers := st.(initialDistanceBetweenFingers);
     initialScale := st.(initialScale);
     initialTouchCenter := st.(initialTouchCenter);
     initialOffset := st.(initialOffset);
     dragPositionStart := st.(dragPositionStart);
     dragPositionOffsetStart := st.(dragPositionOffsetStart);
     isDragging := st.(isDragging) |}.

Definition setOffset (v : Point) (st : State) : State :=
  {| scale := st.(scale); offset := v;
     initialDistanceBetweenFingers := st.(initialDistanceBetweenFingers);
     initialScale := st.(initialScale);
     initialTouchCenter := st.(initialTouchCenter);
     initialOffset := st.(initialOffset);
     dragPositionStart := st.(dragPositionStart);
     dragPositionOffsetStart := st.(dragPositionOffsetStart);
     isDragging := st.(isDragging) |}.

Definition setInitialDistanceBetweenFingers (v : num) (st : State) : State :=
  {| scale := st.(scale); offset := st.(offset);
     initialDistanceBetweenFingers := v;
     initialScale := st.(initialScale);
     initialTouchCenter := st.(initialTouchCenter);
     initialOffset := st.(initialOffset);
     dragPositionStart := st.(dragPositionStart);
     dragPositionOffsetStart := st.(dragPositionOffsetStart);
     isDragging := st.(isDragging) |}.

Definition setInitialScale (v : num) (st : State) : State :=
  {| scale := st.(scale); offset := st.(offset);
     initialDistanceBetweenFingers := st.(initialDistanceBetweenFingers);
     initialScale := v;
     initialTouchCenter := st.(initialTouchCenter);
     initialOffset := st.(initialOffset);
     dragPositionStart := st.(dragPositionStart);
     dragPositionOffsetStart := st.(dragPositionOffsetStart);
     isDragging := st.(isDragging) |}.

Definition setInitialTouchCenter (v : Point) (st : State) : State :=
  {| scale := st.(scale); offset := st.(offset);
     initialDistanceBetweenFingers := st.(initialDistanceBetweenFingers);
     initialScale := st.(initialScale);
     initialTouchCenter := v;
     initialOffset := st.(initialOffset);
     dragPositionStart := st.(dragPositionStart);
     dragPositionOffsetStart := st.(dragPositionOffsetStart);
     isDragging := st.(isDragging) |}.

Definition setInitialOffset (v : Point) (st : State) : State :=
  {| scale := st.(scale); offset := st.(offset);
     initialDistanceBetweenFingers := st.(initialDistanceBetweenFingers);
     initialScale := st.(initialScale);
     initialTouchCenter := st.(initialTouchCenter);
     initialOffset := v;
     dragPositionStart := st.(dragPositionStart);
     dragPositionOffsetStart := st.(dragPositionOffsetStart);
     isDragging := st.(isDragging) |}.

Definition setDragPositionStart (v : Point) (st : State) : State :=
  {| scale := st.(scale); offset := st.(offset);
     initialDistanceBetweenFingers := st.(initialDistanceBetweenFingers);
     initialScale := st.(initialScale);
     initialTouchCenter := st.(initialTouchCenter);
     initialOffset := st.(initialOffset);
     dragPositionStart := v;
     dragPositionOffsetStart := st.(dragPositionOffsetStart);
     isDragging := st.(isDragging) |}.

Definition setDragPositionOffsetStart (v : Point) (st : State) : State :=
  {| scale := st.(scale); offset := st.(offset);
     initialDistanceBetweenFingers := st.(initialDistanceBetweenFingers);
     initialScale := st.(initialScale);
     initialTouchCenter := st.(initialTouchCenter);
     initialOffset := st.(initialOffset);
     dragPositionStart := st.(dragPositionStart);
     dragPositionOffsetStart := v;
     isDragging := st.(isDragging) |}.

Definition setIsDragging (v : bool) (st : State) : State :=
  {| scale := st.(scale); offset := st.(offset);
     initialDistanceBetweenFingers := st.(initialDistanceBetweenFingers);
     initialScale := st.(initialScale);
     initialTouchCenter := st.(initialTouchCenter);
     initialOffset := st.(initialOffset);
     dragPositionStart := st.(dragPositionStart);
     dragPositionOffsetStart := st.(dragPositionOffsetStart);
     isDragging := v |}.

(** *** The handlers

    Every read is of the state [st] the handler was called in (the values
    of the render that created it); the setters are applied to [st] in the
    order of the calls. *)

Definition SCROLLWHEEL_FACTOR : num := lit_0_1.

Definition handlePointerDown (event : PointerEvent.t num) (st : State) : State :=
  let newDragPositionStart :=
    {| x := event.(PointerEvent.clientX); y := event.(PointerEvent.clientY) |} in
  setIsDragging true
    (setDragPositionOffsetStart st.(offset)
       (setDragPositionStart newDragPositionStart st)).

Definition handlePointerUp (st : State) : State :=
  setIsDragging false st.

Definition handlePointerMove (event : PointerEvent.t num) (st : State) : State :=
  if st.(isDragging) then
    let dragPositionEnd :=
      {| x := event.(PointerEvent.clientX); y := event.(PointerEvent.clientY) |} in
    let deltaX := dragPositionEnd.(x) - st.(dragPositionStart).(x) in
    let deltaY := dragPositionEnd.(y) - st.(dragPositionStart).(y) in
    setOffset
      {| x := Math_round (st.(dragPositionOffsetStart).(x) + deltaX);
         y := Math_round (st.(dragPositionOffsetStart).(y) + deltaY) |}
      st
  else st.

(** [event.touches.length >= 2] holds exactly when the list has a first and
    a second element, [event.touches[0]] and [event.touches[1]]. *)
Definition handleTouchStart (event : TouchEvent.t num) (st : State) : State :=
  match event.(TouchEvent.touches) with
  | touches0 :: touches1 :: _ =>
      let distanceX := touches1.(Touch.clientX) - touches0.(Touch.clientX) in
      let distanceY := touches1.(Touch.clientY) - touches0.(Touch.clientY) in
      let initialDistance :=
        Math_sqrt (distanceX * distanceX + distanceY * distanceY) in
      let centerX :=
        touches0.(Touch.clientX)
        + (touches1.(Touch.clientX) - touches0.(Touch.clientX)) / lit_2 in
      let centerY :=
        touches0.(Touch.clientY)
        + (touches1.(Touch.clientY) - touches0.(Touch.clientY)) / lit_2 in
      setInitialOffset st.(offset)
        (setInitialScale st.(scale)
           (setInitialTouchCenter {| x := centerX; y := centerY |}
              (setInitialDistanceBetweenFingers initialDistance st)))
  | _ => st
  end.

Definition handleTouchMove (event : TouchEvent.t num) (st : State) : State :=
  match event.(TouchEvent.touches) with
  | touches0 :: touches1 :: _ =>
      let distanceX := touches1.(Touch.clientX) - touches0.(Touch.clientX) in
      let distanceY := touches1.(Touch.clientY) - touches0.(Touch.clientY) in
      let currentDistanceBetweenFingers :=
        Math_sqrt (distanceX * distanceX + distanceY * distanceY) in
      let scaleChange :=
        currentDistanceBetweenFingers / st.(initialDistanceBetweenFingers) in
      let newScale := st.(initialScale) * scaleChange in
      let imageCoordinateX :=
        (st.(initialTouchCenter).(x) - st.(initialOffset).(x)) / st.(initialScale) in
      let imageCoordinateY :=
        (st.(initialTouchCenter).(y) - st.(initialOffset).(y)) / st.(initialScale) in
      let wouldBeNewScreenPositionX :=
        imageCoordinateX * newScale + st.(initialOffset).(x) in
      let wouldBeNewScreenPositionY :=
        imageCoordinateY * newScale + st.(initialOffset).(y) in
      let offsetAdjustmentX1 :=
        st.(initialTouchCenter).(x) - wouldBeNewScreenPositionX in
      let offsetAdjustmentY1 :=
        st.(initialTouchCenter).(y) - wouldBeNewScreenPositionY in
      let currentCenterX :=
        touches0.(Touch.clientX)
        + (touches1.(Touch.clientX) - touches0.(Touch.clientX)) / lit_2 in
      let currentCenterY :=
        touches0.(Touch.clientY)
        + (touches1.(Touch.clientY) - touches0.(Touch.clientY)) / lit_2 in
      let offsetAdjustmentX2 := currentCenterX - st.(initialTouchCenter).(x) in
      let offsetAdjustmentY2 := currentCenterY - st.(initialTouchCenter).(y) in
      setOffset
        {| x := st.(initialOffset).(x) + offsetAdjustmentX1 + offsetAdjustmentX2;
           y := st.(initialOffset).(y) + offsetAdjustmentY1 + offsetAdjustmentY2 |}
        (setScale newScale st)
  | _ => st
  end.

(** The source names its two locals [initialScale] and [initialOffset]; they
    hide the hook states of the same names, which [handleWheel] never reads. *)
Definition handleWheel (event : WheelEvent.t num) (st : State) : State :=
  let initialScale := st.(scale) in
  let initialOffset := st.(offset) in
  let newScale :=
    if event.(WheelEvent.deltaY) >? lit_0
    then initialScale * (lit_1 - SCROLLWHEEL_FACTOR)
    else initialScale * (lit_1 + SCROLLWHEEL_FACTOR) in
  let imageCoordinateX :=
    (event.(WheelEvent.clientX) - initialOffset.(x)) / initialScale in
  let imageCoordinateY :=
    (event.(WheelEvent.clientY) - initialOffset.(y)) / initialScale in
  let wouldBeNewScreenPositionX := imageCoordinateX * newScale + initialOffset.(x) in
  let wouldBeNewScreenPositionY := imageCoordinateY * newScale + initialOffset.(y) in
  let offsetAdjustmentX1 := event.(WheelEvent.clientX) - wouldBeNewScreenPositionX in
  let offsetAdjustmentY1 := event.(WheelEvent.clientY) - wouldBeNewScreenPositionY in
  setOffset
    {| x := initialOffset.(x) + offsetAdjustmentX1;
       y := initialOffset.(y) + offsetAdjustmentY1 |}
    (setScale newScale st).

(** *** The event wiring of the rendered [div] *)

Inductive Event : Type :=
| onPointerDown (event : PointerEvent.t num)
| onPointerUp
| onPointerMove (event : PointerEvent.t num)
| onTouchStart (event : TouchEvent.t num)
| onTouchMove (event : TouchEvent.t num)
| onWheel (event : WheelEvent.t num).

Definition dispatch (st : State) (e : Event) : State :=
  match e with
  | onPointerDown event => handlePointerDown event st
  | onPointerUp => handlePointerUp st
  | onPointerMove event => handlePointerMove event st
  | onTouchStart event => handleTouchStart event st
  | onTouchMove event => handleTouchMove event st
  | onWheel event => handleWheel event st
  end.

Definition run (es : list Event) (st : State) : State :=
  fold_left dispatch es st.

End Handlers.

Arguments Point num : clear implicits.
Arguments State num : clear implicits.
Arguments Event num : clear implicits.

(** ** Exact arithmetic: the real numbers

    [Math.round] is the nearest integer, the larger one at a tie: the floor of
    [v + 1/2].  [Math.sqrt] is only applied to sums of two squares. *)

Module Exact.

Local Open Scope R_scope.

Definition round (v : R) : R := IZR (Zfloor (v + / 2)).

Definition gtb (a b : R) : bool := if Rlt_dec b a then true else false.

#[global] Instance number : Number R := {|
  num_add := Rplus;
  num_sub := Rminus;
  num_mul := Rmult;
  num_div := Rdiv;
  num_gt := gtb;
  Math_sqrt := R_sqrt.sqrt;
  Math_round := round;
  lit_0 := 0;
  lit_1 := 1;
  lit_2 := 2;
  lit_0_1 := 1 / 10
|}.

(** A state with every field defined: the one reached, under the parent of
    the README ([scale] 1, [offset] (0, 0)), by a pointer-down at (50, 50),
    a pointer-up, and a touch-start with fingers at (0, 0) and (3, 4). *)
Definition sample : State R :=
  {| scale := 1;
     offset := {| x := 0; y := 0 |};
     initialDistanceBetweenFingers := 5;
     initialScale := 1;
     initialTouchCenter := {| x := 3 / 2; y := 2 |};
     initialOffset := {| x := 0; y := 0 |};
     dragPositionStart := {| x := 50; y := 50 |};
     dragPositionOffsetStart := {| x := 0; y := 0 |};
     isDragging := false |}.

End Exact.

(** ** IEEE binary64: the numbers JS computes with *)

Module Binary64.

Local Open Scope float_scope.

Definition two52 : float := 4503599627370496.

(** The largest integer not above [v], for [|v| < 2^52]: adding and
    removing [2^52] rounds [v] to an integer, which is then corrected. *)
Definition floor (v : float) : float :=
  let t := if 0 <=? v then (v + two52) - two52 else (v - two52) + two52 in
  if v <? t then t - 1 else t.

(** [Math.round] (ECMAScript 21.3.2.28): [v] itself when it is [NaN],
    infinite or integral (from [2^52] on every binary64 value is integral),
    [-0] for [-0.5 <= v < 0], and otherwise the nearest integer, the larger
    one at a tie. *)
Definition round (v : float) : float :=
  if is_nan v || (two52 <=? abs v) then v
  else
    let f := floor v in
    if f =? v then v
    else if (v <? 0) && (-0.5 <=? v) then neg_zero
    else if 0.5 <=? v - f then f + 1 else f.

Definition gtb (a b : float) : bool := b <? a.

#[global] Instance number : Number float := {|
  num_add := PrimFloat.add;
  num_sub := PrimFloat.sub;
  num_mul := PrimFloat.mul;
  num_div := PrimFloat.div;
  num_gt := gtb;
  Math_sqrt := PrimFloat.sqrt;
  Math_round := round;
  lit_0 := 0;
  lit_1 := 1;
  lit_2 := 2;
  lit_0_1 := 0.1
|}.

(** Classes of binary64 values, on their specification [Prim2SF]. *)
Definition zero_or_nan (f : spec_float) : Prop :=
  match f with
  | S754_zero false | S754_nan => True
  | _ => False
  end.

Definition inf_or_nan (f : spec_float) : Prop :=
  match f with
  | S754_infinity _ | S754_nan => True
  | _ => False
  end.

Definition zero_class (f : spec_float) : Prop :=
  match f with
  | S754_zero _ | S754_nan => True
  | _ => False
  end.

(** A state whose scale is no number and whose pinch values cannot give one:
    the recorded scale is no number either, or the recorded distance is 0 or
    [NaN]. *)
Definition stuck (st : State float) : Prop :=
  inf_or_nan (Prim2SF st.(scale))
  /\ (inf_or_nan (Prim2SF st.(initialScale))
      \/ zero_class (Prim2SF st.(initialDistanceBetweenFingers))).

(** The state of the first render: [useState(0)], [useState(1)],
    [useState({})], [useState({ x: 0, y: 0 })], [useState(false)], under a
    parent that holds [scale] and [offset].  The fields [x] and [y] of [{}]
    are [undefined]; the handlers read them only as operands of [+], [-]
    and [/], where [undefined] is converted to [NaN]. *)
Definition empty_object : Point float := {| x := nan; y := nan |}.

Definition first_render (scale : float) (offset : Point float) : State float :=
  {| scale := scale;
     offset := offset;
     initialDistanceBetweenFingers := 0;
     initialScale := 1;
     initialTouchCenter := empty_object;
     initialOffset := empty_object;
     dragPositionStart := {| x := 0; y := 0 |};
     dragPositionOffsetStart := empty_object;
     isDragging := false |}.

(** The parent of the README: [useState(1)] and [useState({ x: 0, y: 0 })]. *)
Definition initial : State float := first_render 1 {| x := 0; y := 0 |}.

End Binary64.

(** ** Coordinates

    The render places the children in a [div] with [left: offset.x],
    [top: offset.y], [transform: scale(scale)] and
    [transformOrigin: "top left"]: an image point [c] is shown at
    [c * scale + offset].  The handlers invert this map in their step 1
    ("convert it from screen coordinate space to image coordinate space"). *)

Section Coordinates.

Context {num : Type} {N : Number num}.
Local Open Scope js_scope.

Definition toScreen (st : State num) (c : Point num) : Point num :=
  {| x := c.(x) * st.(scale) + st.(offset).(x);
     y := c.(y) * st.(scale) + st.(offset).(y) |}.

Definition toImage (st : State num) (p : Point num) : Point num :=
  {| x := (p.(x) - st.(offset).(x)) / st.(scale);
     y := (p.(y) - st.(offset).(y)) / st.(scale) |}.

(** The point between two fingers, as both touch handlers compute it. *)
Definition centerOf (touches0 touches1 : Touch.t num) : Point num :=
  {| x := touches0.(Touch.clientX)
          + (touches1.(Touch.clientX) - touches0.(Touch.clientX)) / lit_2;
     y := touches0.(Touch.clientY)
          + (touches1.(Touch.clientY) - touches0.(Touch.clientY)) / lit_2 |}.

(** The distance between two fingers, as both touch handlers compute it. *)
Definition distanceOf (touches0 touches1 : Touch.t num) : num :=
  let distanceX := touches1.(Touch.clientX) - touches0.(Touch.clientX) in
  let distanceY := touches1.(Touch.clientY) - touches0.(Touch.clientY) in
  Math_sqrt (distanceX * distanceX + distanceY * distanceY).

Definition cursor (event : WheelEvent.t num) : Point num :=
  {| x := event.(WheelEvent.clientX); y := event.(WheelEvent.clientY) |}.

(** A finger moved by the vector [v]. *)
Definition moved (v : Point num) (t : Touch.t num) : Touch.t num :=
  {| Touch.clientX := t.(Touch.clientX) + v.(x);
     Touch.clientY := t.(Touch.clientY) + v.(y) |}.

(** The four values a pinch is computed from. *)
Definition pinchStart (st : State num) : num * num * Point num * Point num :=
  (st.(initialDistanceBetweenFingers), st.(initialScale),
   st.(initialTouchCenter), st.(initialOffset)).

(** The three values a drag is computed from. *)
Definition dragStart (st : State num) : bool * Point num * Point num :=
  (st.(isDragging), st.(dragPositionStart), st.(dragPositionOffsetStart)).

Definition transform (st : State num) : num * Point num :=
  (st.(scale), st.(offset)).

(** The state with the transform a pinch started from. *)
Definition atStart (st : State num) : State num :=
  setOffset st.(initialOffset) (setScale st.(initialScale) st).

(** Where a finger, or the pointer, is. *)
Definition positionOf (t : Touch.t num) : Point num :=
  {| x := t.(Touch.clientX); y := t.(Touch.clientY) |}.

Definition pointerOf (event : PointerEvent.t num) : Point num :=
  {| x := event.(PointerEvent.clientX); y := event.(PointerEvent.clientY) |}.

(** The factor [handleWheel] multiplies the scale by, and the product of the
    factors of a sequence of wheel events. *)
Definition wheelFactor (event : WheelEvent.t num) : num :=
  if event.(WheelEvent.deltaY) >? lit_0
  then lit_1 - SCROLLWHEEL_FACTOR
  else lit_1 + SCROLLWHEEL_FACTOR.

Definition wheelFactors (events : list (WheelEvent.t num)) : num :=
  fold_right (fun event k => wheelFactor event * k) lit_1 events.

(** Events written shortly. *)
Definition pointerAt (a b : num) : PointerEvent.t num :=
  {| PointerEvent.clientX := a; PointerEvent.clientY := b |}.

Definition fingerAt (a b : num) : Touch.t num :=
  {| Touch.clientX := a; Touch.clientY := b |}.

Definition fingers (l : list (Touch.t num)) : TouchEvent.t num :=
  {| TouchEvent.touches := l |}.

Definition wheelAt (a b d : num) : WheelEvent.t num :=
  {| WheelEvent.clientX := a; WheelEvent.clientY := b; WheelEvent.deltaY := d |}.

End Coordinates.

(** * Properties that hold in every arithmetic *)

Section AnyArithmetic.

Context {num : Type} {N : Number num}.
Local Open Scope js_scope.

Lemma handleTouchStart_two (touches0 touches1 : Touch.t num) rest (st : State num) :
  let st' :=
    handleTouchStart {| TouchEvent.touches := touches0 :: touches1 :: rest |} st in
  pinchStart st'
  = (distanceOf touches0 touches1, st.(scale), centerOf touches0 touches1, st.(offset))
  /\ transform st' = transform st
  /\ dragStart st' = dragStart st.
Proof. repeat split. Qed.

Lemma handleTouchMove_two (touches0 touches1 : Touch.t num) rest (st : State num) :
  let st' :=
    handleTouchMove {| TouchEvent.touches := touches0 :: touches1 :: rest |} st in
  let newScale :=
    st.(initialScale)
    * (distanceOf touches0 touches1 / st.(initialDistanceBetweenFingers)) in
  let image := toImage (setOffset st.(initialOffset) (setScale st.(initialScale) st))
                 st.(initialTouchCenter) in
  let center := centerOf touches0 touches1 in
  st'.(scale) = newScale
  /\ st'.(offset)
     = {| x := st.(initialOffset).(x)
               + (st.(initialTouchCenter).(x)
                  - (image.(x) * newScale + st.(initialOffset).(x)))
               + (center.(x) - st.(initialTouchCenter).(x));
          y := st.(initialOffset).(y)
               + (st.(initialTouchCenter).(y)
                  - (image.(y) * newScale + st.(initialOffset).(y)))
               + (center.(y) - st.(initialTouchCenter).(y)) |}
  /\ pinchStart st' = pinchStart st
  /\ dragStart st' = dragStart st.
Proof. repeat split. Qed.

Lemma fewer_than_two (event : TouchEvent.t num) :
  length event.(TouchEvent.touches) < 2 ->
  match event.(TouchEvent.touches) with
  | _ :: _ :: _ => False
  | _ => True
  end.
Proof.
  destruct event as [[|t0 [|t1 rest]]]; simpl; intros H; try exact I; lia.
Qed.

Lemma handleTouchStart_fewer (event : TouchEvent.t num) (st : State num) :
  length event.(TouchEvent.touches) < 2 -> handleTouchStart event st = st.
Proof.
  intros H; apply fewer_than_two in H; unfold handleTouchStart.
  destruct (TouchEvent.touches event) as [|t0 [|t1 rest]]; easy.
Qed.

Lemma handleTouchMove_fewer (event : TouchEvent.t num) (st : State num) :
  length event.(TouchEvent.touches) < 2 -> handleTouchMove event st = st.
Proof.
  intros H; apply fewer_than_two in H; unfold handleTouchMove.
  destruct (TouchEvent.touches event) as [|t0 [|t1 rest]]; easy.
Qed.

Lemma handlePointerMove_idle (event : PointerEvent.t num) (st : State num) :
  st.(isDragging) = false -> handlePointerMove event st = st.
Proof. intros H; unfold handlePointerMove; now rewrite H. Qed.

(** C10: a touch-start with fewer than two contact points changes nothing:
    the state after [handleTouchStart] is the state before it, in all nine
    fields (the transform, the four values of the pinch, the three of the
    drag). *)
Theorem touch_start_single_finger_noop (event : TouchEvent.t num) (st : State num) :
  length event.(TouchEvent.touches) < 2 ->
  let st' := handleTouchStart event st in
  st' = st
  /\ transform st' = transform st
  /\ pinchStart st' = pinchStart st
  /\ dragStart st' = dragStart st.
Proof.
  intros H st'; subst st'; rewrite (handleTouchStart_fewer event st H); auto.
Qed.

End AnyArithmetic.

(** * Properties in exact arithmetic *)

Section ExactArithmetic.

Import Exact.
Local Open Scope R_scope.

Lemma gtb_true (a b : R) : b < a -> gtb a b = true.
Proof. intros H; unfold gtb; destruct (Rlt_dec b a); [reflexivity | contradiction]. Qed.

Lemma gtb_false (a b : R) : a <= b -> gtb a b = false.
Proof. intros H; unfold gtb; destruct (Rlt_dec b a); [lra | reflexivity]. Qed.

Lemma round_nearest (v : R) :
  exists n : Z, round v = IZR n /\ v - / 2 < IZR n <= v + / 2.
Proof.
  exists (Zfloor (v + / 2)); split; [reflexivity |].
  pose proof (Zfloor_bound (v + / 2)); lra.
Qed.

Lemma wheel_down (event : WheelEvent.t R) (st : State R) :
  0 < event.(WheelEvent.deltaY) ->
  (handleWheel event st).(scale) = st.(scale) * (1 - 1 / 10).
Proof.
  intros H; unfold handleWheel, SCROLLWHEEL_FACTOR; simpl.
  now rewrite (gtb_true H).
Qed.

Lemma wheel_up (event : WheelEvent.t R) (st : State R) :
  event.(WheelEvent.deltaY) <= 0 ->
  (handleWheel event st).(scale) = st.(scale) * (1 + 1 / 10).
Proof.
  intros H; unfold handleWheel, SCROLLWHEEL_FACTOR; simpl.
  now rewrite (gtb_false H).
Qed.

Lemma wheel_offset (event : WheelEvent.t R) (st : State R) :
  st.(scale) <> 0 ->
  let st' := handleWheel event st in
  st'.(offset).(x)
  = event.(WheelEvent.clientX)
    - (event.(WheelEvent.clientX) - st.(offset).(x)) * (st'.(scale) / st.(scale))
  /\ st'.(offset).(y)
     = event.(WheelEvent.clientY)
       - (event.(WheelEvent.clientY) - st.(offset).(y)) * (st'.(scale) / st.(scale)).
Proof.
  intros H; unfold handleWheel, SCROLLWHEEL_FACTOR; simpl.
  destruct (gtb _ _); split; field; exact H.
Qed.

(** C8: the wheel step.  The factor is 0.1; a wheel event with [deltaY > 0]
    multiplies the scale by [1 - 0.1], every other one by [1 + 0.1]; and from
    scale 1 and offset (0, 0) a wheel event at (100, 100) with [deltaY = 1]
    gives scale 0.9 and offset (10, 10), in exact arithmetic and, from the
    first render, in binary64 as well. *)
Theorem wheel_step_size :
  @SCROLLWHEEL_FACTOR R _ = 1 / 10
  /\ (forall (event : WheelEvent.t R) (st : State R),
        0 < event.(WheelEvent.deltaY) ->
        (handleWheel event st).(scale) = st.(scale) * (1 - SCROLLWHEEL_FACTOR))
  /\ (forall (event : WheelEvent.t R) (st : State R),
        event.(WheelEvent.deltaY) <= 0 ->
        (handleWheel event st).(scale) = st.(scale) * (1 + SCROLLWHEEL_FACTOR))
  /\ (forall st : State R,
        st.(scale) = 1 -> st.(offset) = {| x := 0; y := 0 |} ->
        let st' := handleWheel (wheelAt 100 100 1) st in
        st'.(scale) = 9 / 10 /\ st'.(offset) = {| x := 10; y := 10 |})
  /\ (let st' := handleWheel (wheelAt 100 100 1)%float Binary64.initial in
      st'.(scale) = 0.9%float /\ st'.(offset) = {| x := 10%float; y := 10%float |}).
Proof.
  split; [reflexivity |].
  split; [intros event st H; exact (wheel_down event st H) |].
  split; [intros event st H; exact (wheel_up event st H) |].
  split.
  - intros st Hs Ho; unfold handleWheel, SCROLLWHEEL_FACTOR; simpl.
    rewrite gtb_true, Hs, Ho by lra; simpl.
    split; [lra | f_equal; field].
  - vm_compute; split; reflexivity.
Qed.






Lemma distanceOf_moved (v : Point R) (touches0 touches1 : Touch.t R) :
  distanceOf (moved v touches0) (moved v touches1) = distanceOf touches0 touches1.
Proof. unfold distanceOf, moved; simpl; f_equal; ring. Qed.

Lemma centerOf_moved (v : Point R) (touches0 touches1 : Touch.t R) :
  centerOf (moved v touches0) (moved v touches1)
  = {| x := (centerOf touches0 touches1).(x) + v.(x);
       y := (centerOf touches0 touches1).(y) + v.(y) |}.
Proof. unfold centerOf, moved; simpl; f_equal; field. Qed.

Lemma distanceOf_positive (touches0 touches1 : Touch.t R) :
  touches0 <> touches1 -> 0 < distanceOf touches0 touches1.
Proof.
  destruct touches0 as [x0 y0], touches1 as [x1 y1]; intros H.
  unfold distanceOf; simpl; apply sqrt_lt_R0.
  pose proof (Rle_0_sqr (x1 - x0)) as Hx; pose proof (Rle_0_sqr (y1 - y0)) as Hy.
  unfold Rsqr in Hx, Hy.
  destruct (Req_dec x1 x0) as [Ex | Ex].
  - destruct (Req_dec y1 y0) as [Ey | Ey].
    + subst; contradiction H; reflexivity.
    + pose proof (Rsqr_pos_lt (y1 - y0)) as Hp; unfold Rsqr in Hp.
      assert (y1 - y0 <> 0) by lra; specialize (Hp ltac:(assumption)); lra.
  - pose proof (Rsqr_pos_lt (x1 - x0)) as Hp; unfold Rsqr in Hp.
    assert (x1 - x0 <> 0) by lra; specialize (Hp ltac:(assumption)); lra.
Qed.


(** C6, as the code has it, in exact arithmetic: in a pinch whose start
    recorded a finger distance above 0 and a scale above 0, a move that shows both fingers of the start displaced by
    one vector [v] gives the scale of the start and the offset of the start
    plus [v].  The state [st] is any state of the session: one that holds
    what the touch-start at [touches0], [touches1] recorded in [st0]. *)
Theorem pinch_pan_decomposition
    (st0 st : State R) (touches0 touches1 : Touch.t R)
    (rest0 rest1 : list (Touch.t R)) (v : Point R) :
  pinchStart st
  = pinchStart (handleTouchStart (fingers (touches0 :: touches1 :: rest0)) st0) ->
  0 < st.(initialDistanceBetweenFingers) ->
  0 < st.(initialScale) ->
  let st' :=
    handleTouchMove (fingers (moved v touches0 :: moved v touches1 :: rest1)) st in
  st'.(scale) = st.(initialScale)
  /\ st'.(offset) = {| x := st.(initialOffset).(x) + v.(x);
                       y := st.(initialOffset).(y) + v.(y) |}
  /\ st.(initialScale) = st0.(scale)
  /\ st.(initialOffset) = st0.(offset).
Proof.
  intros E Hd Hs st'.
  destruct (handleTouchStart_two touches0 touches1 rest0 st0) as (E0 & _ & _).
  unfold fingers in E; rewrite E0 in E; unfold pinchStart in E.
  pose proof (f_equal (fun p => fst (fst (fst p))) E) as Ed.
  pose proof (f_equal (fun p => snd (fst (fst p))) E) as Es.
  pose proof (f_equal (fun p => snd (fst p)) E) as Ec.
  pose proof (f_equal snd E) as Eo.
  cbn [fst snd] in Ed, Es, Ec, Eo; clear E E0.
  destruct (handleTouchMove_two (moved v touches0) (moved v touches1) rest1 st)
    as (Hscale & Hoffset & _ & _).
  fold (fingers (moved v touches0 :: moved v touches1 :: rest1)) in Hscale, Hoffset.
  fold st' in Hscale, Hoffset; clearbody st'.
  rewrite distanceOf_moved, <- Ed in Hscale.
  rewrite distanceOf_moved, centerOf_moved, <- Ed, <- Ec in Hoffset.
  simpl in Hscale, Hoffset.
  assert (Hscale' : st'.(scale) = st.(initialScale)) by (rewrite Hscale; field; lra).
  repeat split; [exact Hscale' | | exact Es | exact Eo].
  rewrite Hoffset; f_equal; field; lra.
Qed.

Lemma pinch_pan_decomposition_witness :
  let st := handleTouchStart (fingers [fingerAt 0 0; fingerAt 3 4]) sample in
  0 < st.(initialDistanceBetweenFingers)
  /\ 0 < st.(initialScale)
  /\ (let st' := handleTouchMove
                   (fingers [moved {| x := 7; y := -2 |} (fingerAt 0 0);
                             moved {| x := 7; y := -2 |} (fingerAt 3 4)]) st in
      st'.(scale) = st.(initialScale)
      /\ st'.(offset) = {| x := st.(initialOffset).(x) + 7;
                           y := st.(initialOffset).(y) + -2 |}).
Proof.
  intros st.
  assert (Hd : 0 < st.(initialDistanceBetweenFingers)).
  { apply (@distanceOf_positive (fingerAt 0 0) (fingerAt 3 4)).
    intros E; injection E as E _; lra. }
  assert (Hs : 0 < st.(initialScale)) by (simpl; lra).
  split; [exact Hd |]; split; [exact Hs |].
  destruct (@pinch_pan_decomposition sample st (fingerAt 0 0) (fingerAt 3 4) [] []
              {| x := 7; y := -2 |} eq_refl Hd Hs) as (H1 & H2 & _).
  split; [exact H1 | exact H2].
Defined.

Lemma wheel_focal (event : WheelEvent.t R) (st : State R) :
  st.(scale) <> 0 ->
  toScreen (handleWheel event st) (toImage st (cursor event)) = cursor event.
Proof.
  intros H; unfold toScreen, toImage, cursor, handleWheel; simpl.
  destruct (gtb _ _); f_equal; field; exact H.
Qed.

(** A pinch move whose fingers have the centre of the start keeps that
    centre fixed: the image point it showed under the transform of the
    start is shown there again.  [st] is any state of the session. *)
Lemma pinch_focal (touches0 touches1 : Touch.t R) rest (st : State R) :
  st.(initialScale) <> 0 ->
  centerOf touches0 touches1 = st.(initialTouchCenter) ->
  let before := setOffset st.(initialOffset) (setScale st.(initialScale) st) in
  let st' := handleTouchMove (fingers (touches0 :: touches1 :: rest)) st in
  toScreen st' (toImage before st.(initialTouchCenter)) = st.(initialTouchCenter).
Proof.
  intros Hs Ec before st'.
  destruct (handleTouchMove_two touches0 touches1 rest st) as (Hscale & Hoffset & _).
  fold (fingers (touches0 :: touches1 :: rest)) in Hscale, Hoffset.
  fold st' in Hscale, Hoffset; fold before in Hoffset; clearbody st'.
  rewrite Ec in Hoffset.
  unfold toScreen; rewrite Hoffset, Hscale.
  destruct (initialTouchCenter st) as [cx cy]; simpl; f_equal; ring.
Qed.

(** C1, as the code has it: a zoom step keeps the image point under its
    focal point [P] in place, [toScreen st' (toImage st P) = P].  For a
    wheel event, [st] is any state with a scale above 0 and [P] the cursor.
    For a pinch, [st] is the state the touch-start found, with a scale above
    0, the start must have recorded a finger distance above 0, and [P] is
    the centre the start recorded, which the fingers of the move have again. *)
Theorem focal_invariance (st : State R) :
  0 < st.(scale) ->
  (forall event : WheelEvent.t R,
      toScreen (handleWheel event st) (toImage st (cursor event)) = cursor event)
  /\ (forall (touches0 touches1 moved0 moved1 : Touch.t R) rest0 rest1,
        let st1 := handleTouchStart (fingers (touches0 :: touches1 :: rest0)) st in
        0 < st1.(initialDistanceBetweenFingers) ->
        centerOf moved0 moved1 = st1.(initialTouchCenter) ->
        let st2 := handleTouchMove (fingers (moved0 :: moved1 :: rest1)) st1 in
        toScreen st2 (toImage st st1.(initialTouchCenter)) = st1.(initialTouchCenter)).
Proof.
  intros H; split.
  - intros event; apply wheel_focal; lra.
  - intros touches0 touches1 moved0 moved1 rest0 rest1 st1 _ Ec st2.
    assert (Hs : st1.(initialScale) <> 0) by (simpl; lra).
    exact (@pinch_focal moved0 moved1 rest1 st1 Hs Ec).
Qed.

Lemma focal_invariance_witness :
  0 < sample.(scale)
  /\ toScreen (handleWheel (wheelAt 100 100 1) sample)
       (toImage sample {| x := 100; y := 100 |}) = {| x := 100; y := 100 |}
  /\ (let st1 := handleTouchStart (fingers [fingerAt 0 0; fingerAt 3 4]) sample in
      let st2 := handleTouchMove (fingers [fingerAt (-3 / 2) (-2); fingerAt (9 / 2) 6]) st1 in
      0 < st1.(initialDistanceBetweenFingers)
      /\ toScreen st2 (toImage sample st1.(initialTouchCenter))
         = st1.(initialTouchCenter)).
Proof.
  assert (H : 0 < sample.(scale)) by (simpl; lra).
  destruct (focal_invariance sample H) as (Hwheel & Hpinch).
  split; [exact H |]; split; [exact (Hwheel (wheelAt 100 100 1)) |].
  intros st1 st2.
  assert (Hd : 0 < st1.(initialDistanceBetweenFingers)).
  { apply (@distanceOf_positive (fingerAt 0 0) (fingerAt 3 4)).
    intros E; injection E as E _; lra. }
  split; [exact Hd |].
  apply (Hpinch (fingerAt 0 0) (fingerAt 3 4) (fingerAt (-3 / 2) (-2))
           (fingerAt (9 / 2) 6) [] [] Hd).
  unfold centerOf; simpl; f_equal; field.
Defined.




End ExactArithmetic.

(** * Properties in binary64 *)

Section Binary64Arithmetic.

Import Binary64.
Local Open Scope float_scope.

Lemma inf_or_nan_not_finite (v : float) :
  inf_or_nan (Prim2SF v) -> is_finite v = false.
Proof.
  unfold is_finite, is_nan, is_infinity.
  rewrite !eqb_spec, abs_spec.
  change (Prim2SF infinity) with (S754_infinity false).
  destruct (Prim2SF v) as [s | s | | s m e]; simpl; intros H;
    try contradiction; [destruct s |]; reflexivity.
Qed.

Lemma eqb_zero (v : float) : (v =? 0) = true -> exists s, Prim2SF v = S754_zero s.
Proof.
  rewrite eqb_spec.
  change (Prim2SF 0) with (S754_zero false).
  destruct (Prim2SF v) as [s | s | | s m e]; simpl; intros H;
    try discriminate.
  - now exists s.
  - destruct s; discriminate.
  - destruct s; discriminate.
Qed.

Lemma sub_self (a : float) : zero_or_nan (Prim2SF (a - a)).
Proof.
  rewrite sub_spec; unfold SF64sub, SFsub.
  destruct (Prim2SF a) as [s | s | | s m e].
  - destruct s; exact I.
  - destruct s; exact I.
  - exact I.
  - rewrite Z.min_id; unfold shl_align; rewrite Z.sub_diag.
    cbn [fst]; rewrite ?Z.sub_diag; exact I.
Qed.

Lemma distanceOf_same_point (t : Touch.t float) : zero_or_nan (Prim2SF (distanceOf t t)).
Proof.
  unfold distanceOf; cbn [Math_sqrt num_add num_mul num_sub number].
  pose proof (sub_self t.(Touch.clientX)) as Hx.
  pose proof (sub_self t.(Touch.clientY)) as Hy.
  rewrite sqrt_spec, add_spec, !mul_spec.
  destruct (Prim2SF (t.(Touch.clientX) - t.(Touch.clientX))) as [[|] | | |];
    destruct (Prim2SF (t.(Touch.clientY) - t.(Touch.clientY))) as [[|] | | |];
    try contradiction; exact I.
Qed.

Lemma div_zero_or_nan (a d : float) :
  (exists s, Prim2SF d = S754_zero s) \/ Prim2SF d = S754_nan ->
  inf_or_nan (Prim2SF (a / d)).
Proof.
  intros H; rewrite div_spec; unfold SF64div, SFdiv.
  destruct H as [[s H] | H]; rewrite H;
    destruct (Prim2SF a) as [sa | sa | | sa ma ea]; exact I.
Qed.

Lemma mul_inf_or_nan (a q : float) :
  inf_or_nan (Prim2SF q) -> inf_or_nan (Prim2SF (a * q)).
Proof.
  rewrite mul_spec; unfold SF64mul, SFmul.
  destruct (Prim2SF q) as [s | s | | s m e]; intros H; try contradiction;
    destruct (Prim2SF a) as [sa | sa | | sa ma ea]; exact I.
Qed.

Lemma pinch_scale_not_finite (touches0 touches1 : Touch.t float) rest (st : State float) :
  (exists s, Prim2SF st.(initialDistanceBetweenFingers) = S754_zero s)
  \/ Prim2SF st.(initialDistanceBetweenFingers) = S754_nan ->
  is_finite (handleTouchMove (fingers (touches0 :: touches1 :: rest)) st).(scale) = false.
Proof.
  intros H; apply inf_or_nan_not_finite.
  destruct (handleTouchMove_two touches0 touches1 rest st) as (Hscale & _).
  unfold fingers; rewrite Hscale.
  apply mul_inf_or_nan, div_zero_or_nan, H.
Qed.

(** C3, as the code has it: no case is made for a finger distance of 0.
    When the recorded distance is 0, and so after every touch-start whose
    first two fingers are at one point, every pinch move with two or more
    fingers sets the scale to [initialScale * (distance / 0)], which is
    [Infinity], [-Infinity] or [NaN]: never a finite number. *)
Theorem degenerate_pinch_not_guarded :
  (forall (st : State float) (moved0 moved1 : Touch.t float) rest,
      (st.(initialDistanceBetweenFingers) =? 0) = true ->
      is_finite (handleTouchMove (fingers (moved0 :: moved1 :: rest)) st).(scale)
      = false)
  /\ (forall (st : State float) (touches0 moved0 moved1 : Touch.t float) rest0 rest1,
        let st1 := handleTouchStart (fingers (touches0 :: touches0 :: rest0)) st in
        is_finite (handleTouchMove (fingers (moved0 :: moved1 :: rest1)) st1).(scale)
        = false).
Proof.
  split.
  - intros st moved0 moved1 rest H.
    apply pinch_scale_not_finite; left; now apply eqb_zero.
  - intros st touches0 moved0 moved1 rest0 rest1 st1.
    apply pinch_scale_not_finite.
    pose proof (distanceOf_same_point touches0) as H.
    change st1.(initialDistanceBetweenFingers) with (distanceOf touches0 touches0).
    destruct (Prim2SF (distanceOf touches0 touches0)) as [[|] | | |];
      try contradiction; [left; now exists false | now right].
Qed.

End Binary64Arithmetic.

(** * The scale and the pinch move *)

Section ScalePositivity.

Import Binary64.
Local Open Scope R_scope.





End ScalePositivity.

(** * Sessions *)

Section Sessions.

Context {num : Type} {N : Number num}.
Local Open Scope js_scope.

(** C4, as the code has it: nothing arbitrates between a drag and a pinch.
    A drag is the flag [isDragging], set by every pointer-down and cleared
    by pointer-up alone; a pinch has no flag.  A pointer-down keeps what the
    last touch-start recorded and a touch-start keeps the drag, so after a
    two-finger touch-start and a pointer-down, in either order, the drag is
    active and the pinch holds the values of its start; neither move handler
    changes the other's values. *)
Theorem drag_and_pinch_independent (st : State num) :
  (forall (down : PointerEvent.t num) (touches0 touches1 : Touch.t num) rest,
      let start := fingers (touches0 :: touches1 :: rest) in
      let st1 := handlePointerDown down (handleTouchStart start st) in
      let st2 := handleTouchStart start (handlePointerDown down st) in
      st1.(isDragging) = true
      /\ pinchStart st1 = pinchStart (handleTouchStart start st)
      /\ st2.(isDragging) = true
      /\ dragStart st2 = dragStart (handlePointerDown down st)
      /\ pinchStart st2 = pinchStart (handleTouchStart start st))
  /\ (forall event : TouchEvent.t num,
        dragStart (handleTouchStart event st) = dragStart st
        /\ dragStart (handleTouchMove event st) = dragStart st)
  /\ (forall event : PointerEvent.t num,
        pinchStart (handlePointerDown event st) = pinchStart st
        /\ pinchStart (handlePointerMove event st) = pinchStart st
        /\ pinchStart (handlePointerUp st) = pinchStart st).
Proof.
  split; [| split].
  - intros down touches0 touches1 rest start st1 st2; repeat split.
  - intros [[|t0 [|t1 rest]]]; split; reflexivity.
  - intros event; repeat split.
    unfold handlePointerMove; destruct (isDragging st); reflexivity.
Qed.

(** C5, as the code has it: a pointer move while no drag is active changes
    nothing, and a touch move with fewer than two fingers changes nothing.
    A touch move with two or more fingers is never ignored: it sets the
    scale to [initialScale * (distance / initialDistanceBetweenFingers)]
    from the values the state holds, whether a touch-start recorded them or
    not. *)
Theorem stray_moves (st : State num) :
  (forall event : PointerEvent.t num,
      st.(isDragging) = false -> handlePointerMove event st = st)
  /\ (forall event : TouchEvent.t num,
        length event.(TouchEvent.touches) < 2 -> handleTouchMove event st = st)
  /\ (forall (touches0 touches1 : Touch.t num) rest,
        (handleTouchMove (fingers (touches0 :: touches1 :: rest)) st).(scale)
        = st.(initialScale)
          * (distanceOf touches0 touches1 / st.(initialDistanceBetweenFingers))).
Proof.
  split; [| split].
  - intros event H; now apply handlePointerMove_idle.
  - intros event H; now apply handleTouchMove_fewer.
  - reflexivity.
Qed.

(** X1: the three values of a drag are written by pointer-down and pointer-up
    alone, the four values of a pinch by touch-start alone: the moves and the
    wheel compute from them and keep them. *)
Lemma starts_kept (st : State num) (e : Event num) :
  ((forall event, e <> onPointerDown event) -> e <> onPointerUp ->
   dragStart (dispatch st e) = dragStart st)
  /\ ((forall event, e <> onTouchStart event) ->
      pinchStart (dispatch st e) = pinchStart st).
Proof.
  split.
  - intros Hdown Hup.
    destruct e as [event | | event | event | event | event]; simpl.
    + contradiction (Hdown event); reflexivity.
    + contradiction Hup; reflexivity.
    + unfold handlePointerMove; destruct (isDragging st); reflexivity.
    + unfold handleTouchStart.
      destruct (TouchEvent.touches event) as [|t0 [|t1 rest]]; reflexivity.
    + unfold handleTouchMove.
      destruct (TouchEvent.touches event) as [|t0 [|t1 rest]]; reflexivity.
    + reflexivity.
  - intros Hstart.
    destruct e as [event | | event | event | event | event]; simpl.
    + reflexivity.
    + reflexivity.
    + unfold handlePointerMove; destruct (isDragging st); reflexivity.
    + contradiction (Hstart event); reflexivity.
    + unfold handleTouchMove.
      destruct (TouchEvent.touches event) as [|t0 [|t1 rest]]; reflexivity.
    + reflexivity.
Qed.

(** X2: a move is computed from the values of the start, not from the move
    before it: after two moves the state is the one the second move gives
    alone. *)
Lemma moves_not_chained (st : State num) :
  (forall first second : PointerEvent.t num,
      handlePointerMove second (handlePointerMove first st)
      = handlePointerMove second st)
  /\ (forall (first second : TouchEvent.t num),
        2 <= length second.(TouchEvent.touches) ->
        handleTouchMove second (handleTouchMove first st)
        = handleTouchMove second st).
Proof.
  split.
  - intros first second; unfold handlePointerMove.
    destruct (isDragging st) eqn:E; simpl; rewrite ?E; reflexivity.
  - intros [[|a [|b rest]]] [[|t0 [|t1 rest']]]; simpl; intros H;
      try lia; reflexivity.
Qed.

(** A pointer-down records its point and the current offset, marks the
    drag active, and changes neither the transform nor the values of a
    pinch. *)
Lemma handlePointerDown_starts (event : PointerEvent.t num) (st : State num) :
  let st' := handlePointerDown event st in
  dragStart st'
  = (true,
     {| x := event.(PointerEvent.clientX); y := event.(PointerEvent.clientY) |},
     st.(offset))
  /\ transform st' = transform st
  /\ pinchStart st' = pinchStart st.
Proof. repeat split. Qed.

(** A pointer-up clears [isDragging] and nothing else; pointer moves after
    it change nothing. *)
Lemma handlePointerUp_ends (st : State num) :
  handlePointerUp st = setIsDragging false st
  /\ (handlePointerUp st).(isDragging) = false
  /\ (forall event, handlePointerMove event (handlePointerUp st) = handlePointerUp st).
Proof. repeat split. Qed.

End Sessions.

(** * Runs in binary64, from the first render *)

Section Binary64Runs.

Import Binary64.
Local Open Scope float_scope.

(** The spec's drag, from (50, 50) to (80, 65) with offset (0, 0), ends with
    offset (30, 15) and the scale it had. *)
Example drag_example :
  transform
    (run [onPointerDown (pointerAt 50 50); onPointerMove (pointerAt 80 65)] initial)
  = (1, {| x := 30; y := 15 |}).
Proof. vm_compute; reflexivity. Qed.

(** A pinch started with fingers at (0, 0) and (3, 4) and moved, both fingers
    by (7, -2), keeps the scale 1 and sets the offset to (7, -2). *)
Example pan_example :
  transform
    (run [onTouchStart (fingers [fingerAt 0 0; fingerAt 3 4]);
          onTouchMove (fingers [fingerAt 7 (-2); fingerAt 10 2])] initial)
  = (1, {| x := 7; y := -2 |}).
Proof. vm_compute; reflexivity. Qed.

(** The state [Exact.sample] describes, reached in binary64. *)
Example sample_reached :
  run [onPointerDown (pointerAt 50 50); onPointerUp;
       onTouchStart (fingers [fingerAt 0 0; fingerAt 3 4])] initial
  = {| scale := 1;
       offset := {| x := 0; y := 0 |};
       initialDistanceBetweenFingers := 5;
       initialScale := 1;
       initialTouchCenter := {| x := 1.5; y := 2 |};
       initialOffset := {| x := 0; y := 0 |};
       dragPositionStart := {| x := 50; y := 50 |};
       dragPositionOffsetStart := {| x := 0; y := 0 |};
       isDragging := false |}.
Proof. vm_compute; reflexivity. Qed.

Lemma touch_start_single_finger_noop_witness :
  length (fingers [fingerAt 7 9]).(TouchEvent.touches) < 2
  /\ handleTouchStart (fingers [fingerAt 7 9]) initial = initial.
Proof.
  assert (H : length (fingers [fingerAt 7 9]).(TouchEvent.touches) < 2)
    by (simpl; lia).
  split; [exact H |].
  exact (proj1 (touch_start_single_finger_noop (fingers [fingerAt 7 9]) initial H)).
Defined.

(** C1 fails on a pinch whose start had both fingers at (5, 5): the move
    with fingers at (4, 4) and (6, 6) has the centre of the start, the scale
    before the pinch is 1, and the image point under (5, 5) is shown at
    ([NaN], [NaN]) afterwards. *)
Lemma focal_invariance_fails_degenerate_pinch :
  let st := initial in
  let st1 := handleTouchStart (fingers [fingerAt 5 5; fingerAt 5 5]) st in
  let st2 := handleTouchMove (fingers [fingerAt 4 4; fingerAt 6 6]) st1 in
  (0 <? st.(scale)) = true
  /\ centerOf (fingerAt 4 4) (fingerAt 6 6) = st1.(initialTouchCenter)
  /\ st1.(initialTouchCenter) = {| x := 5; y := 5 |}
  /\ transform st2 = (infinity, {| x := neg_infinity; y := neg_infinity |})
  /\ toScreen st2 (toImage st st1.(initialTouchCenter)) = {| x := nan; y := nan |}
  /\ toScreen st2 (toImage st st1.(initialTouchCenter)) <> st1.(initialTouchCenter).
Proof.
  vm_compute; repeat split.
  intros H; apply (f_equal (fun p => p.(x) =? p.(x))) in H.
  vm_compute in H; discriminate.
Qed.


(** C3 fails after a touch-start with both fingers at (5, 5): the next pinch
    move sets the scale to [Infinity], or to [NaN] when its fingers are at
    one point too. *)
Lemma degenerate_pinch_scale_not_finite :
  let st1 := handleTouchStart (fingers [fingerAt 5 5; fingerAt 5 5]) initial in
  st1.(initialDistanceBetweenFingers) = 0
  /\ (handleTouchMove (fingers [fingerAt 0 0; fingerAt 3 4]) st1).(scale) = infinity
  /\ (handleTouchMove (fingers [fingerAt 5 5; fingerAt 5 5]) st1).(scale) = nan
  /\ is_finite (handleTouchMove (fingers [fingerAt 0 0; fingerAt 3 4]) st1).(scale)
     = false.
Proof. vm_compute; repeat split. Qed.

(** C4 fails when two fingers land, each with its pointer-down and its
    touch-start: in the state reached the drag is active, a pointer move
    changes the offset, and a two-finger touch move changes the scale. *)
Lemma drag_and_pinch_both_active :
  let st :=
    run [onPointerDown (pointerAt 0 0);
         onTouchStart (fingers [fingerAt 0 0]);
         onPointerDown (pointerAt 3 4);
         onTouchStart (fingers [fingerAt 0 0; fingerAt 3 4])] initial in
  st.(isDragging) = true
  /\ pinchStart st = (5, 1, {| x := 1.5; y := 2 |}, {| x := 0; y := 0 |})
  /\ transform st = (1, {| x := 0; y := 0 |})
  /\ transform (dispatch st (onPointerMove (pointerAt 6 8)))
     = (1, {| x := 3; y := 4 |})
  /\ transform (dispatch st (onTouchMove (fingers [fingerAt 0 0; fingerAt 6 8])))
     = (2, {| x := 0; y := 0 |}).
Proof. vm_compute; repeat split. Qed.

(** C5 fails on a two-finger touch move in the first render, before any
    touch-start: the transform (1, (0, 0)) becomes ([Infinity], ([NaN], [NaN])). *)
Lemma touch_move_without_start :
  let st := run [] initial in
  st.(isDragging) = false
  /\ transform st = (1, {| x := 0; y := 0 |})
  /\ transform (dispatch st (onTouchMove (fingers [fingerAt 0 0; fingerAt 3 4])))
     = (infinity, {| x := nan; y := nan |}).
Proof. vm_compute; repeat split. Qed.

(** C6 fails in binary64 on an everyday pinch: after one wheel event at
    (100, 100) the scale is 0.9 and the offset (10, 10); a pinch started with
    fingers at (100, 150) and (300, 350) and moved, both fingers by (30, 15),
    keeps the scale but sets the offset to (40, 24.999999999999972), below
    the offset of the start plus the vector, (40, 25). *)
Lemma pinch_pan_decomposition_fails_binary64 :
  let st0 := run [onWheel (wheelAt 100 100 1)] initial in
  let st1 := handleTouchStart (fingers [fingerAt 100 150; fingerAt 300 350]) st0 in
  let v := {| x := 30; y := 15 |} in
  let st2 :=
    handleTouchMove
      (fingers [moved v (fingerAt 100 150); moved v (fingerAt 300 350)]) st1 in
  (0 <? st1.(initialDistanceBetweenFingers)) = true
  /\ (0 <? st1.(initialScale)) = true
  /\ st1.(initialOffset) = {| x := 10; y := 10 |}
  /\ moved v (fingerAt 100 150) = fingerAt 130 165
  /\ moved v (fingerAt 300 350) = fingerAt 330 365
  /\ distanceOf (fingerAt 130 165) (fingerAt 330 365)
     = distanceOf (fingerAt 100 150) (fingerAt 300 350)
  /\ st2.(scale) = st1.(initialScale)
  /\ st2.(offset).(x) = 40
  /\ (st2.(offset).(y) <? st1.(initialOffset).(y) + v.(y)) = true
  /\ st2.(offset)
     <> {| x := st1.(initialOffset).(x) + v.(x); y := st1.(initialOffset).(y) + v.(y) |}.
Proof.
  vm_compute; repeat split.
  intros H; apply (f_equal (fun p => p.(y) =? 25)) in H.
  vm_compute in H; discriminate.
Qed.



End Binary64Runs.


(** * What the handlers compute from: the values of the start *)

Section Overwriting.

Context {num : Type} {N : Number num}.
Local Open Scope js_scope.

Lemma handleTouchStart_eq (touches0 touches1 : Touch.t num) rest (st : State num) :
  handleTouchStart (fingers (touches0 :: touches1 :: rest)) st
  = setInitialOffset st.(offset)
      (setInitialScale st.(scale)
         (setInitialTouchCenter (centerOf touches0 touches1)
            (setInitialDistanceBetweenFingers (distanceOf touches0 touches1) st))).
Proof. reflexivity. Qed.

Lemma handleTouchMove_eq (touches0 touches1 : Touch.t num) rest (st : State num) :
  let newScale :=
    st.(initialScale)
    * (distanceOf touches0 touches1 / st.(initialDistanceBetweenFingers)) in
  let image := toImage (atStart st) st.(initialTouchCenter) in
  let center := centerOf touches0 touches1 in
  handleTouchMove (fingers (touches0 :: touches1 :: rest)) st
  = setOffset
      {| x := st.(initialOffset).(x)
              + (st.(initialTouchCenter).(x)
                 - (image.(x) * newScale + st.(initialOffset).(x)))
              + (center.(x) - st.(initialTouchCenter).(x));
         y := st.(initialOffset).(y)
              + (st.(initialTouchCenter).(y)
                 - (image.(y) * newScale + st.(initialOffset).(y)))
              + (center.(y) - st.(initialTouchCenter).(y)) |}
      (setScale newScale st).
Proof. reflexivity. Qed.

(** X3: the transform a move sets depends on the values of the start alone,
    not on the transform it finds.  Two states with the same four values of a
    pinch get the same scale and offset from a touch move with two or more
    fingers; two states with the same three values of an active drag get
    the same offset from a pointer move.  So what a wheel event or the other
    gesture did to the transform in between is overwritten: after a wheel
    event during a drag, the next pointer move sets the offset it would have
    set without the wheel event, and keeps the scale of the wheel event. *)
Theorem moves_overwrite (st st' : State num) :
  (forall (touches0 touches1 : Touch.t num) rest,
      pinchStart st = pinchStart st' ->
      transform (handleTouchMove (fingers (touches0 :: touches1 :: rest)) st)
      = transform (handleTouchMove (fingers (touches0 :: touches1 :: rest)) st'))
  /\ (forall event : PointerEvent.t num,
        dragStart st = dragStart st' -> st.(isDragging) = true ->
        (handlePointerMove event st).(offset) = (handlePointerMove event st').(offset))
  /\ (forall (wheel : WheelEvent.t num) (event : PointerEvent.t num),
        st.(isDragging) = true ->
        let st2 := handlePointerMove event (handleWheel wheel st) in
        st2.(offset) = (handlePointerMove event st).(offset)
        /\ st2.(scale) = (handleWheel wheel st).(scale)).
Proof.
  split; [| split].
  - intros touches0 touches1 rest E.
    pose proof (f_equal (fun p => fst (fst (fst p))) E) as Ed.
    pose proof (f_equal (fun p => snd (fst (fst p))) E) as Es.
    pose proof (f_equal (fun p => snd (fst p)) E) as Ec.
    pose proof (f_equal snd E) as Eo.
    unfold pinchStart in Ed, Es, Ec, Eo; cbn [fst snd] in Ed, Es, Ec, Eo.
    rewrite !handleTouchMove_eq.
    unfold transform, toImage, atStart, setOffset, setScale; cbn [scale offset].
    rewrite Ed, Es, Ec, Eo; reflexivity.
  - intros event E H.
    pose proof (f_equal (fun p => fst (fst p)) E) as Ei.
    pose proof (f_equal (fun p => snd (fst p)) E) as Ep.
    pose proof (f_equal snd E) as Eo.
    unfold dragStart in Ei, Ep, Eo; cbn [fst snd] in Ei, Ep, Eo.
    unfold handlePointerMove; rewrite <- Ei, H; cbn [setOffset offset].
    rewrite Ep, Eo; reflexivity.
  - intros wheel event H st2; subst st2.
    unfold handlePointerMove; cbn [handleWheel setOffset setScale isDragging].
    rewrite H; split; reflexivity.
Qed.

End Overwriting.

(** * The geometry of the zoom, in exact arithmetic *)

Section ExactGeometry.

Import Exact.
Local Open Scope R_scope.

Lemma wheelFactor_cases (event : WheelEvent.t R) :
  (0 < event.(WheelEvent.deltaY) /\ wheelFactor event = 9 / 10)
  \/ (event.(WheelEvent.deltaY) <= 0 /\ wheelFactor event = 11 / 10).
Proof.
  unfold wheelFactor, SCROLLWHEEL_FACTOR; simpl.
  destruct (Rlt_dec 0 event.(WheelEvent.deltaY)) as [H | H].
  - left; split; [exact H |]; rewrite (gtb_true H); lra.
  - right; split; [lra |]; rewrite gtb_false by lra; lra.
Qed.

Lemma handleWheel_scale (event : WheelEvent.t R) (st : State R) :
  (handleWheel event st).(scale) = st.(scale) * wheelFactor event.
Proof.
  unfold handleWheel, wheelFactor; simpl; destruct (gtb _ _); reflexivity.
Qed.

Lemma toScreen_toImage (st : State R) (p : Point R) :
  st.(scale) <> 0 -> toScreen st (toImage st p) = p.
Proof.
  intros H; destruct p as [px py]; unfold toScreen, toImage; simpl.
  f_equal; field; exact H.
Qed.

Lemma toImage_toScreen (st : State R) (c : Point R) :
  st.(scale) <> 0 -> toImage st (toScreen st c) = c.
Proof.
  intros H; destruct c as [cx cy]; unfold toScreen, toImage; simpl.
  f_equal; field; exact H.
Qed.

(** X4: a wheel event is a zoom of the screen about the cursor.  With a scale
    that is not 0, the scale is multiplied by the factor of the event (0.9
    for [deltaY > 0], 1.1 otherwise), and every image point moves, on the
    screen, to the cursor plus that factor times its former offset from the
    cursor. *)
Theorem wheel_zooms_about_cursor (event : WheelEvent.t R) (st : State R) (c : Point R) :
  st.(scale) <> 0 ->
  let st' := handleWheel event st in
  let k := wheelFactor event in
  st'.(scale) = st.(scale) * k
  /\ (toScreen st' c).(x)
     = event.(WheelEvent.clientX) + k * ((toScreen st c).(x) - event.(WheelEvent.clientX))
  /\ (toScreen st' c).(y)
     = event.(WheelEvent.clientY) + k * ((toScreen st c).(y) - event.(WheelEvent.clientY)).
Proof.
  intros H st' k; subst st' k.
  unfold handleWheel, wheelFactor, toScreen; simpl.
  destruct (gtb _ _); repeat split; field; exact H.
Qed.

Lemma wheel_zooms_about_cursor_witness :
  sample.(scale) <> 0
  /\ (toScreen (handleWheel (wheelAt 100 100 1) sample) {| x := 40; y := 20 |}).(x)
     = 100 + wheelFactor (wheelAt 100 100 1)
             * ((toScreen sample {| x := 40; y := 20 |}).(x) - 100).
Proof.
  assert (H : sample.(scale) <> 0) by (simpl; lra).
  split; [exact H |].
  exact (proj1 (proj2 (@wheel_zooms_about_cursor (wheelAt 100 100 1) sample
                         {| x := 40; y := 20 |} H))).
Defined.

Lemma pinch_shown (touches0 touches1 : Touch.t R) rest (st : State R) (c : Point R) :
  st.(initialScale) <> 0 ->
  let st' := handleTouchMove (fingers (touches0 :: touches1 :: rest)) st in
  let k := distanceOf touches0 touches1 / st.(initialDistanceBetweenFingers) in
  toScreen st' c
  = {| x := (centerOf touches0 touches1).(x)
            + k * ((toScreen (atStart st) c).(x) - st.(initialTouchCenter).(x));
       y := (centerOf touches0 touches1).(y)
            + k * ((toScreen (atStart st) c).(y) - st.(initialTouchCenter).(y)) |}.
Proof.
  intros Hs st' k; subst st'; rewrite handleTouchMove_eq; cbv zeta.
  change (@num_div R _ (distanceOf touches0 touches1) st.(initialDistanceBetweenFingers))
    with k.
  clearbody k; generalize (centerOf touches0 touches1); intros [gx gy].
  unfold toScreen, toImage, atStart, setOffset, setScale; simpl.
  f_equal; field; exact Hs.
Qed.

(** X5: a pinch move is a zoom of the screen about the centre of the start,
    followed by the move of the centre.  With a recorded scale that is not 0
    and a recorded finger distance above 0, every image point moves to the
    centre of the fingers plus [distance / initialDistance] times the offset
    it had from the centre of the start under the transform of the start. *)
Theorem pinch_zooms_about_centre
    (touches0 touches1 : Touch.t R) rest (st : State R) (c : Point R) :
  st.(initialScale) <> 0 ->
  0 < st.(initialDistanceBetweenFingers) ->
  let st' := handleTouchMove (fingers (touches0 :: touches1 :: rest)) st in
  let k := distanceOf touches0 touches1 / st.(initialDistanceBetweenFingers) in
  st'.(scale) = st.(initialScale) * k
  /\ (toScreen st' c).(x)
     = (centerOf touches0 touches1).(x)
       + k * ((toScreen (atStart st) c).(x) - st.(initialTouchCenter).(x))
  /\ (toScreen st' c).(y)
     = (centerOf touches0 touches1).(y)
       + k * ((toScreen (atStart st) c).(y) - st.(initialTouchCenter).(y)).
Proof.
  intros Hs Hd st' k.
  pose proof (@pinch_shown touches0 touches1 rest st c Hs) as E.
  cbv zeta in E; fold st' k in E; split; [reflexivity |].
  rewrite E; split; reflexivity.
Qed.

Lemma pinch_zooms_about_centre_witness :
  sample.(initialScale) <> 0
  /\ 0 < sample.(initialDistanceBetweenFingers)
  /\ (handleTouchMove (fingers [fingerAt 0 0; fingerAt 6 8]) sample).(scale)
     = sample.(initialScale)
       * (distanceOf (fingerAt 0 0) (fingerAt 6 8) / sample.(initialDistanceBetweenFingers)).
Proof.
  assert (Hs : sample.(initialScale) <> 0) by (simpl; lra).
  assert (Hd : 0 < sample.(initialDistanceBetweenFingers)) by (simpl; lra).
  split; [exact Hs |]; split; [exact Hd |].
  exact (proj1 (@pinch_zooms_about_centre (fingerAt 0 0) (fingerAt 6 8) [] sample
                  {| x := 0; y := 0 |} Hs Hd)).
Defined.

Lemma distanceOf_scaled (touches0 touches1 moved0 moved1 : Touch.t R) (k : R) :
  0 <= k ->
  moved1.(Touch.clientX) - moved0.(Touch.clientX)
  = k * (touches1.(Touch.clientX) - touches0.(Touch.clientX)) ->
  moved1.(Touch.clientY) - moved0.(Touch.clientY)
  = k * (touches1.(Touch.clientY) - touches0.(Touch.clientY)) ->
  distanceOf moved0 moved1 = k * distanceOf touches0 touches1.
Proof.
  intros Hk Hx Hy; unfold distanceOf; simpl; rewrite Hx, Hy.
  set (a := touches1.(Touch.clientX) - touches0.(Touch.clientX)).
  set (b := touches1.(Touch.clientY) - touches0.(Touch.clientY)).
  replace (k * a * (k * a) + k * b * (k * b)) with (k * k * (a * a + b * b)) by ring.
  rewrite sqrt_mult; [rewrite (sqrt_square k Hk); reflexivity | nra | nra].
Qed.

(** X6: a pinch without rotation keeps each finger on its image point.  When
    the start found a scale above 0 and two fingers at different points, and
    the move shows the fingers with the vector between them multiplied by
    some [k >= 0], the image points that were under the two fingers at the
    start are under the two fingers after the move. *)
Theorem pinch_keeps_fingers_on_image
    (st : State R) (touches0 touches1 moved0 moved1 : Touch.t R)
    (rest0 rest1 : list (Touch.t R)) (k : R) :
  0 < st.(scale) ->
  touches0 <> touches1 ->
  0 <= k ->
  moved1.(Touch.clientX) - moved0.(Touch.clientX)
  = k * (touches1.(Touch.clientX) - touches0.(Touch.clientX)) ->
  moved1.(Touch.clientY) - moved0.(Touch.clientY)
  = k * (touches1.(Touch.clientY) - touches0.(Touch.clientY)) ->
  let st1 := handleTouchStart (fingers (touches0 :: touches1 :: rest0)) st in
  let st2 := handleTouchMove (fingers (moved0 :: moved1 :: rest1)) st1 in
  toScreen st2 (toImage st (positionOf touches0)) = positionOf moved0
  /\ toScreen st2 (toImage st (positionOf touches1)) = positionOf moved1.
Proof.
  intros Hs Hne Hk Hx Hy st1 st2.
  pose proof (distanceOf_positive Hne) as Hd.
  assert (Hs1 : st1.(initialScale) <> 0) by (simpl; lra).
  assert (Hratio : distanceOf moved0 moved1 / st1.(initialDistanceBetweenFingers) = k).
  { change st1.(initialDistanceBetweenFingers) with (distanceOf touches0 touches1).
    rewrite (distanceOf_scaled touches0 touches1 moved0 moved1 Hk Hx Hy).
    field; lra. }
  assert (Hshown : forall c : Point R,
             toScreen st2 c
             = {| x := (centerOf moved0 moved1).(x)
                       + k * ((toScreen st c).(x) - (centerOf touches0 touches1).(x));
                  y := (centerOf moved0 moved1).(y)
                       + k * ((toScreen st c).(y) - (centerOf touches0 touches1).(y)) |}).
  { intros c.
    pose proof (@pinch_shown moved0 moved1 rest1 st1 c Hs1) as E.
    cbv zeta in E; fold st2 in E; rewrite Hratio in E; exact E. }
  assert (Hn : st.(scale) <> 0) by lra.
  rewrite !Hshown, !toScreen_toImage by exact Hn.
  unfold centerOf, positionOf; simpl; split; f_equal; nra.
Qed.

Lemma pinch_keeps_fingers_on_image_witness :
  let st1 := handleTouchStart (fingers [fingerAt 0 0; fingerAt 3 4]) sample in
  let st2 := handleTouchMove (fingers [fingerAt 10 10; fingerAt 16 18]) st1 in
  toScreen st2 (toImage sample (positionOf (fingerAt 0 0))) = positionOf (fingerAt 10 10)
  /\ toScreen st2 (toImage sample (positionOf (fingerAt 3 4))) = positionOf (fingerAt 16 18).
Proof.
  apply (@pinch_keeps_fingers_on_image sample (fingerAt 0 0) (fingerAt 3 4)
           (fingerAt 10 10) (fingerAt 16 18) [] [] 2).
  - simpl; lra.
  - intros E; injection E as E _; lra.
  - lra.
  - simpl; lra.
  - simpl; lra.
Defined.

Lemma round_integer (z : Z) : round (IZR z) = IZR z.
Proof. unfold round; f_equal; apply Zfloor_eq; lra. Qed.

(** X7: a drag keeps the grabbed image point under the pointer, to half a
    pixel.  After a pointer-down in a state whose scale is not 0 and a
    pointer move, the image point that was under the pointer at the
    pointer-down is shown within 1/2 of the pointer in each coordinate, and
    exactly at the pointer when the offset plus the displacement is an
    integer in each coordinate. *)
Theorem drag_follows_pointer (st : State R) (down move : PointerEvent.t R) :
  st.(scale) <> 0 ->
  let st2 := handlePointerMove move (handlePointerDown down st) in
  let shown := toScreen st2 (toImage st (pointerOf down)) in
  (- / 2 < shown.(x) - move.(PointerEvent.clientX) <= / 2
   /\ - / 2 < shown.(y) - move.(PointerEvent.clientY) <= / 2)
  /\ (forall n m : Z,
        st.(offset).(x) + (move.(PointerEvent.clientX) - down.(PointerEvent.clientX))
        = IZR n ->
        st.(offset).(y) + (move.(PointerEvent.clientY) - down.(PointerEvent.clientY))
        = IZR m ->
        shown = pointerOf move).
Proof.
  intros H st2 shown; subst shown st2.
  unfold handlePointerMove, handlePointerDown, toScreen, toImage, pointerOf; simpl.
  set (vx := st.(offset).(x) + (move.(PointerEvent.clientX) - down.(PointerEvent.clientX))).
  set (vy := st.(offset).(y) + (move.(PointerEvent.clientY) - down.(PointerEvent.clientY))).
  replace ((down.(PointerEvent.clientX) - st.(offset).(x)) / st.(scale) * st.(scale))
    with (down.(PointerEvent.clientX) - st.(offset).(x)) by (field; exact H).
  replace ((down.(PointerEvent.clientY) - st.(offset).(y)) / st.(scale) * st.(scale))
    with (down.(PointerEvent.clientY) - st.(offset).(y)) by (field; exact H).
  split.
  - destruct (round_nearest vx) as (n & En & Hn).
    destruct (round_nearest vy) as (m & Em & Hm).
    rewrite En, Em; subst vx vy; lra.
  - intros n m En Em; rewrite En, Em, !round_integer, <- En, <- Em.
    subst vx vy; f_equal; ring.
Qed.

Lemma drag_follows_pointer_witness :
  sample.(scale) <> 0
  /\ (let st2 := handlePointerMove (pointerAt 80 65) (handlePointerDown (pointerAt 50 50) sample) in
      toScreen st2 (toImage sample (pointerOf (pointerAt 50 50)))
      = pointerOf (pointerAt 80 65)).
Proof.
  assert (H : sample.(scale) <> 0) by (simpl; lra).
  split; [exact H |].
  apply (proj2 (@drag_follows_pointer sample (pointerAt 50 50) (pointerAt 80 65) H)
           30%Z 15%Z); simpl; lra.
Defined.

(** X8: a pointer-down and a pointer move at the same point round the
    offset: the offset becomes [Math.round] of each coordinate, which is the
    offset it was exactly when both coordinates were integers.  So a drag
    that starts after a zoom snaps the offset to whole pixels even when the
    pointer does not move. *)
Theorem drag_without_displacement_rounds (st : State R) (event : PointerEvent.t R) :
  let st2 := handlePointerMove event (handlePointerDown event st) in
  st2.(offset) = {| x := Math_round st.(offset).(x); y := Math_round st.(offset).(y) |}
  /\ (st2.(offset) = st.(offset)
      <-> exists n m : Z, st.(offset) = {| x := IZR n; y := IZR m |}).
Proof.
  intros st2.
  assert (E : st2.(offset)
              = {| x := Math_round st.(offset).(x); y := Math_round st.(offset).(y) |}).
  { subst st2; unfold handlePointerMove, handlePointerDown; simpl.
    f_equal; f_equal; ring. }
  split; [exact E |]; rewrite E; destruct (offset st) as [ox oy]; simpl; split.
  - intros H; injection H as Hx Hy.
    exists (Zfloor (ox + / 2)), (Zfloor (oy + / 2)).
    unfold round in Hx, Hy; rewrite Hx, Hy; reflexivity.
  - intros (n & m & H); injection H as Hx Hy; subst ox oy.
    rewrite !round_integer; reflexivity.
Qed.

Lemma wheelFactor_positive (event : WheelEvent.t R) : 0 < wheelFactor event.
Proof. destruct (wheelFactor_cases event) as [[_ E] | [_ E]]; rewrite E; lra. Qed.

(** X9: wheel events at one cursor compose.  From a scale above 0, after any
    sequence of wheel events that all have the cursor at [p], the scale is
    the scale before times the product of the factors of the events, and the
    image point that was under [p] before the first event is under [p] after
    the last. *)
Theorem wheels_at_one_cursor (p : Point R) (events : list (WheelEvent.t R)) (st : State R) :
  0 < st.(scale) ->
  Forall (fun event => cursor event = p) events ->
  let st' := run (map (@onWheel R) events) st in
  st'.(scale) = st.(scale) * wheelFactors events
  /\ 0 < st'.(scale)
  /\ toScreen st' (toImage st p) = p.
Proof.
  revert st; induction events as [|event events IH]; intros st H Hall; cbv zeta.
  - simpl; repeat split; [ring | exact H | apply toScreen_toImage; lra].
  - inversion Hall as [|e es Hp Hrest]; subst e es.
    assert (H1 : 0 < (handleWheel event st).(scale)).
    { rewrite handleWheel_scale; pose proof (wheelFactor_positive event); nra. }
    destruct (IH (handleWheel event st) H1 Hrest) as (Es & Hpos & Ep).
    change (run (map (@onWheel R) (event :: events)) st)
      with (run (map (@onWheel R) events) (handleWheel event st)).
    repeat split; [| exact Hpos |].
    + rewrite Es, handleWheel_scale; simpl; ring.
    + assert (Ei : toImage (handleWheel event st) p = toImage st p).
      { assert (F : toScreen (handleWheel event st) (toImage st p) = p)
          by (rewrite <- Hp; apply wheel_focal; lra).
        transitivity (toImage (handleWheel event st)
                        (toScreen (handleWheel event st) (toImage st p))).
        - now rewrite F.
        - apply toImage_toScreen; lra. }
      rewrite <- Ei; exact Ep.
Qed.

Lemma wheels_at_one_cursor_witness :
  let events := [wheelAt 100 100 1; wheelAt 100 100 (-1); wheelAt 100 100 1] in
  let st' := run (map (@onWheel R) events) sample in
  st'.(scale) = sample.(scale) * wheelFactors events
  /\ 0 < st'.(scale)
  /\ toScreen st' (toImage sample {| x := 100; y := 100 |}) = {| x := 100; y := 100 |}.
Proof.
  apply (@wheels_at_one_cursor {| x := 100; y := 100 |}
           [wheelAt 100 100 1; wheelAt 100 100 (-1); wheelAt 100 100 1] sample).
  - simpl; lra.
  - repeat constructor.
Defined.

(** X10: the two wheel steps do not undo each other.  From a scale above 0,
    a wheel event with [deltaY > 0] and one with [deltaY <= 0], in either
    order and wherever the cursor is, leave the scale at 99/100 of what it
    was, never at what it was. *)
Theorem wheel_down_up_not_restoring (st : State R) (down up : WheelEvent.t R) :
  0 < st.(scale) ->
  0 < down.(WheelEvent.deltaY) ->
  up.(WheelEvent.deltaY) <= 0 ->
  let st1 := handleWheel up (handleWheel down st) in
  let st2 := handleWheel down (handleWheel up st) in
  st1.(scale) = st.(scale) * (99 / 100)
  /\ st2.(scale) = st.(scale) * (99 / 100)
  /\ st1.(scale) <> st.(scale)
  /\ st2.(scale) <> st.(scale).
Proof.
  intros H Hd Hu st1 st2.
  assert (E1 : st1.(scale) = st.(scale) * (99 / 100)).
  { subst st1; rewrite (wheel_up up _ Hu), (wheel_down down _ Hd); field. }
  assert (E2 : st2.(scale) = st.(scale) * (99 / 100)).
  { subst st2; rewrite (wheel_down down _ Hd), (wheel_up up _ Hu); field. }
  repeat split; [exact E1 | exact E2 | rewrite E1; lra | rewrite E2; lra].
Qed.

Lemma wheel_down_up_not_restoring_witness :
  (handleWheel (wheelAt 7 8 (-1)) (handleWheel (wheelAt 100 100 1) sample)).(scale)
  = sample.(scale) * (99 / 100).
Proof.
  apply (@wheel_down_up_not_restoring sample (wheelAt 100 100 1) (wheelAt 7 8 (-1)));
    simpl; lra.
Defined.

Lemma distanceOf_swap (touches0 touches1 : Touch.t R) :
  distanceOf touches1 touches0 = distanceOf touches0 touches1.
Proof. unfold distanceOf; simpl; f_equal; ring. Qed.

Lemma centerOf_swap (touches0 touches1 : Touch.t R) :
  centerOf touches1 touches0 = centerOf touches0 touches1.
Proof. unfold centerOf; simpl; f_equal; field. Qed.

(** X11: the touch handlers read the first two fingers as an unordered pair
    and nothing of the others.  A touch-start, or a touch move, gives the
    same state when the first two fingers are exchanged and the further
    fingers are replaced by any others. *)
Theorem touch_handlers_unordered_pair
    (touches0 touches1 : Touch.t R) (rest rest' : list (Touch.t R)) (st : State R) :
  handleTouchStart (fingers (touches1 :: touches0 :: rest')) st
  = handleTouchStart (fingers (touches0 :: touches1 :: rest)) st
  /\ handleTouchMove (fingers (touches1 :: touches0 :: rest')) st
     = handleTouchMove (fingers (touches0 :: touches1 :: rest)) st.
Proof.
  split.
  - rewrite !handleTouchStart_eq, distanceOf_swap, centerOf_swap; reflexivity.
  - rewrite !handleTouchMove_eq; cbv zeta.
    rewrite distanceOf_swap, centerOf_swap; reflexivity.
Qed.

End ExactGeometry.


(** * States the handlers do not leave, in binary64 *)

Section Binary64Stuck.

Import Binary64.
Local Open Scope float_scope.

Lemma mul_left_inf_or_nan (a q : float) :
  inf_or_nan (Prim2SF a) -> inf_or_nan (Prim2SF (a * q)).
Proof.
  rewrite mul_spec; unfold SF64mul, SFmul.
  destruct (Prim2SF a) as [sa | sa | | sa ma ea]; intros H; try contradiction;
    destruct (Prim2SF q) as [s | s | | s m e]; exact I.
Qed.

Lemma handleWheel_scale_binary64 (event : WheelEvent.t float) (st : State float) :
  (handleWheel event st).(scale) = st.(scale) * (1 - 0.1)
  \/ (handleWheel event st).(scale) = st.(scale) * (1 + 0.1).
Proof.
  unfold handleWheel, SCROLLWHEEL_FACTOR; cbn [setOffset setScale scale].
  destruct (num_gt _ _); [left | right]; reflexivity.
Qed.

Lemma stuck_dispatch (st : State float) (e : Event float) :
  stuck st -> stuck (dispatch st e).
Proof.
  intros [Hscale Hstart].
  destruct e as [event | | event | event | event | event]; simpl.
  - split; assumption.
  - split; assumption.
  - unfold handlePointerMove; destruct (isDragging st); split; assumption.
  - destruct event as [[|t0 [|t1 rest]]]; try (split; assumption).
    split; [exact Hscale | left; exact Hscale].
  - destruct event as [[|t0 [|t1 rest]]]; try (split; assumption).
    split; [| exact Hstart].
    destruct (handleTouchMove_two t0 t1 rest st) as (E & _); rewrite E.
    destruct Hstart as [Hs | Hd].
    + now apply mul_left_inf_or_nan.
    + apply mul_inf_or_nan, div_zero_or_nan.
      destruct (Prim2SF (initialDistanceBetweenFingers st)) as [s | s | | s m e];
        try contradiction; [left; now exists s | now right].
  - split; [| exact Hstart].
    destruct (handleWheel_scale_binary64 event st) as [E | E]; rewrite E;
      now apply mul_left_inf_or_nan.
Qed.

Lemma stuck_run (events : list (Event float)) (st : State float) :
  stuck st -> stuck (run events st).
Proof.
  revert st; induction events as [|e events IH]; intros st H; [exact H |].
  apply IH, stuck_dispatch, H.
Qed.

(** X12: a scale that is no number stays no number.  In a state whose scale
    is [Infinity], [-Infinity] or [NaN] and whose pinch values are a recorded
    scale of that kind or a recorded distance that is 0 or [NaN], no sequence
    of events gives a finite scale again; and every pinch move that follows a
    touch-start with the first two fingers at one point leaves such a
    state. *)
Theorem scale_never_recovers :
  (forall (st : State float) (events : list (Event float)),
      stuck st ->
      stuck (run events st) /\ is_finite (run events st).(scale) = false)
  /\ (forall (st : State float) (touches0 moved0 moved1 : Touch.t float) rest0 rest1,
        stuck (handleTouchMove (fingers (moved0 :: moved1 :: rest1))
                 (handleTouchStart (fingers (touches0 :: touches0 :: rest0)) st))).
Proof.
  split.
  - intros st events H; pose proof (stuck_run events H) as [Hs Hp].
    split; [split; assumption | now apply inf_or_nan_not_finite].
  - intros st touches0 moved0 moved1 rest0 rest1.
    set (st1 := handleTouchStart (fingers (touches0 :: touches0 :: rest0)) st).
    assert (Hd : zero_class (Prim2SF st1.(initialDistanceBetweenFingers))).
    { pose proof (distanceOf_same_point touches0) as H.
      change st1.(initialDistanceBetweenFingers) with (distanceOf touches0 touches0).
      destruct (Prim2SF (distanceOf touches0 touches0)) as [[|] | | |];
        try contradiction; exact I. }
    destruct (handleTouchMove_two moved0 moved1 rest1 st1) as (E & _ & Ep & _).
    unfold fingers; split.
    + rewrite E; apply mul_inf_or_nan, div_zero_or_nan.
      destruct (Prim2SF (initialDistanceBetweenFingers st1)) as [s | s | | s m e];
        try contradiction; [left; now exists s | now right].
    + right.
      pose proof (f_equal (fun p => fst (fst (fst p))) Ep) as Ed.
      unfold pinchStart in Ed; cbn [fst] in Ed; rewrite Ed; exact Hd.
Qed.

Lemma zero_times_factor (v c : float) :
  (exists s, Prim2SF v = S754_zero s) ->
  (exists s m e, Prim2SF c = S754_finite s m e) ->
  exists s, Prim2SF (v * c) = S754_zero s.
Proof.
  intros [s Hv] (sc & m & e & Hc); rewrite mul_spec, Hv, Hc; simpl; eauto.
Qed.

Lemma wheel_factors_finite :
  (exists s m e, Prim2SF (1 - 0.1) = S754_finite s m e)
  /\ (exists s m e, Prim2SF (1 + 0.1) = S754_finite s m e).
Proof. split; vm_compute; eauto. Qed.

Lemma mul_inf_zero (q z : float) :
  inf_or_nan (Prim2SF q) -> (exists s, Prim2SF z = S754_zero s) ->
  Prim2SF (q * z) = S754_nan.
Proof.
  intros Hq [s Hz]; rewrite mul_spec, Hz.
  destruct (Prim2SF q) as [sq | sq | | sq m e]; try contradiction; reflexivity.
Qed.

Lemma add_nan_l (a b : float) : Prim2SF a = S754_nan -> Prim2SF (a + b) = S754_nan.
Proof. intros H; rewrite add_spec, H; reflexivity. Qed.

Lemma add_nan_r (a b : float) : Prim2SF b = S754_nan -> Prim2SF (a + b) = S754_nan.
Proof.
  intros H; rewrite add_spec, H; destruct (Prim2SF a) as [s | s | | s m e]; reflexivity.
Qed.

Lemma sub_nan_r (a b : float) : Prim2SF b = S754_nan -> Prim2SF (a - b) = S754_nan.
Proof.
  intros H; rewrite sub_spec, H; destruct (Prim2SF a) as [s | s | | s m e]; reflexivity.
Qed.

Lemma is_nan_eq (v : float) : Prim2SF v = S754_nan -> v = nan.
Proof. intros H; apply Prim2SF_inj; rewrite H; reflexivity. Qed.

Lemma wheel_offset_nan (p o s z : float) :
  (exists b, Prim2SF s = S754_zero b) -> (exists b, Prim2SF z = S754_zero b) ->
  o + (p - ((p - o) / s * z + o)) = nan.
Proof.
  intros Hs Hz; apply is_nan_eq, add_nan_r, sub_nan_r, add_nan_l.
  apply mul_inf_zero; [| exact Hz].
  apply div_zero_or_nan; left; exact Hs.
Qed.

(** X13: at scale 0 the wheel loses the offset.  When the scale is 0 (as a
    pinch move with both fingers at one point leaves it), every wheel event
    keeps the scale 0 and sets both coordinates of the offset to [NaN],
    wherever the cursor is. *)
Theorem wheel_at_scale_zero (event : WheelEvent.t float) (st : State float) :
  (st.(scale) =? 0) = true ->
  let st' := handleWheel event st in
  (st'.(scale) =? 0) = true /\ st'.(offset) = {| x := nan; y := nan |}.
Proof.
  intros H st'; apply eqb_zero in H.
  destruct wheel_factors_finite as [Fdown Fup].
  assert (Hz : exists b, Prim2SF st'.(scale) = S754_zero b).
  { destruct (handleWheel_scale_binary64 event st) as [E | E]; fold st' in E;
      rewrite E; now apply zero_times_factor. }
  split.
  - destruct Hz as [b Hz]; rewrite eqb_spec, Hz; reflexivity.
  - subst st'; revert Hz.
    unfold handleWheel, SCROLLWHEEL_FACTOR; cbn [setOffset setScale scale offset].
    destruct (num_gt _ _); intros Hz; f_equal; now apply wheel_offset_nan.
Qed.

Lemma wheel_at_scale_zero_witness :
  let st :=
    run [onTouchStart (fingers [fingerAt 0 0; fingerAt 3 4]);
         onTouchMove (fingers [fingerAt 1 1; fingerAt 1 1])] initial in
  (st.(scale) =? 0) = true
  /\ (handleWheel (wheelAt 100 100 (-1)) st).(offset) = {| x := nan; y := nan |}.
Proof.
  intros st.
  assert (H : (st.(scale) =? 0) = true) by (vm_compute; reflexivity).
  split; [exact H |].
  exact (proj2 (wheel_at_scale_zero (wheelAt 100 100 (-1)) st H)).
Defined.

End Binary64Stuck.
